(** * BypassNode (ircam-ismm/sc-audio): a shallow embedding of src/BypassNode.js

    [BypassNode] is a GainNode that owns three further gain stages and
    cross-fades between a direct path and a caller-owned sub graph:

      input (the node itself) --> #bypass ------------------+
      input (the node itself) --> #subGraphIn  ... (caller) --> #output

    The class keeps no numeric state of its own: everything it does is a
    sequence of calls into the Web Audio host (node creation, [connect],
    [setTargetAtTime]).  The host is therefore part of the model, as a store
    that records the nodes, the connections and the automation events it was
    asked for.  The host's own argument checks for [connect]/[disconnect],
    which receive arbitrary caller arguments, are left abstract behind the
    [Host] interface below. *)

From Stdlib Require Import String PrimFloat.
From stdpp Require Import base option list.

#[local] Set Warnings "-inexact-float,-register-all".
#[local] Open Scope string_scope.
#[local] Open Scope list_scope.

(** ** JavaScript values *)

(** The values that reach the class: primitives, object literals, and handles
    to host objects.  A JS number is an IEEE binary64, as [PrimFloat.float]. *)
Inductive value : Type :=
| VUndefined
| VNull
| VBool (b : bool)
| VNumber (x : float)
| VString (s : string)
| VPlain (fields : list (string * value))   (* a plain object, e.g. { active: true } *)
| VContext (c : nat)                        (* an instance of BaseAudioContext *)
| VNode (n : nat)                           (* an AudioNode *)
| VParam (n : nat)                          (* the gain AudioParam of node n *)
| VOther (tag : string).                    (* any other object: array, function, Map, ... *)

(** What a JS [throw] carries. [Error] is the class BypassNode.js throws
    itself; the others come from the language and from the host. *)
Inductive exn : Type :=
| Error (msg : string)
| TypeError (msg : string)
| RangeError (msg : string)
| DOMException (name : string).

(** [!!v] *)
Definition ToBoolean (v : value) : bool :=
  match v with
  | VUndefined | VNull => false
  | VBool b => b
  | VNumber x => negb (is_zero x || is_nan x)
  | VString s => negb (String.eqb s "")
  | VPlain _ | VContext _ | VNode _ | VParam _ | VOther _ => true
  end.

(** [v === undefined] *)
Definition is_undefined (v : value) : bool :=
  match v with VUndefined => true | _ => false end.

(** [v instanceof BaseAudioContext] *)
Definition instanceof_BaseAudioContext (v : value) : bool :=
  match v with VContext _ => true | _ => false end.

(** [isPlainObject] of @ircam/sc-utils: true of objects made by a literal,
    [new Object] or [Object.create(null)], which is what [VPlain] stands for. *)
Definition isPlainObject (v : value) : bool :=
  match v with VPlain _ => true | _ => false end.

Fixpoint assoc (k : string) (fields : list (string * value)) : option value :=
  match fields with
  | [] => None
  | (k', v) :: rest => if String.eqb k k' then Some v else assoc k rest
  end.

(** [v.k] on a value that is neither null nor undefined.  Only object
    literals carry properties here; a primitive or a host object has no
    [active] or [gain] property of its own. *)
Definition get_prop (v : value) (k : string) : value :=
  match v with
  | VPlain fields => default VUndefined (assoc k fields)
  | _ => VUndefined
  end.

(** [arguments[i]] *)
Definition argument (i : nat) (args : list value) : value :=
  default VUndefined (args !! i).

(** ** Computations that can throw *)

Inductive outcome (A : Type) : Type :=
| Ok (a : A)
| Throw (e : exn).
Arguments Ok {A} a.
Arguments Throw {A} e.

(** A computation over a mutable store [S]. A [throw] keeps the store as it
    is at that point, as in JS. *)
Definition M (S A : Type) : Type := S → outcome A * S.

Definition ret {S A} (a : A) : M S A := λ s, (Ok a, s).

Definition throw {S A} (e : exn) : M S A := λ s, (Throw e, s).

Definition bind {S A B} (m : M S A) (k : A → M S B) : M S B :=
  λ s, match m s with
       | (Ok a, s') => k a s'
       | (Throw e, s') => (Throw e, s')
       end.

Definition gets {S A} (f : S → A) : M S A := λ s, (Ok (f s), s).

Definition modify {S} (f : S → S) : M S unit := λ s, (Ok tt, f s).

Declare Scope js_scope.
Delimit Scope js_scope with js.
Notation "x <- m ;; k" := (bind m (λ x, k))
  (at level 100, m at next level, right associativity) : js_scope.
Notation "m ;; k" := (bind m (λ _, k))
  (at level 100, right associativity) : js_scope.
#[local] Open Scope js_scope.

(** ** The Web Audio host *)

(** [AudioContext.currentTime]: a finite, non-negative double. *)
Record time : Type := {
  seconds : float;
  seconds_ok : is_finite seconds && negb (seconds <? 0)%float = true
}.

Record GainNodeData : Type := {
  n_context : value;   (* node.context *)
  n_gain : float       (* node.gain.value as set at creation *)
}.

(** One call [source.connect(...args)] the host accepted. *)
Record connection : Type := {
  c_source : nat;
  c_args : list value
}.

(** One call [param.setTargetAtTime(target, startTime, timeConstant)] the
    host accepted, [a_param] being the node whose gain it is. *)
Record automation : Type := {
  a_param : nat;
  a_target : float;
  a_startTime : float;
  a_timeConstant : float
}.

Record host : Type := {
  h_clock : nat → time;                 (* currentTime of each context *)
  h_nodes : list GainNodeData;          (* a node's handle is its index *)
  h_connections : list connection;      (* in the order they were made *)
  h_automation : list automation        (* in the order they were scheduled *)
}.

Definition add_node (nd : GainNodeData) (h : host) : host :=
  {| h_clock := h_clock h;
     h_nodes := h_nodes h ++ [nd];
     h_connections := h_connections h;
     h_automation := h_automation h |}.

Definition add_connection (cn : connection) (h : host) : host :=
  {| h_clock := h_clock h;
     h_nodes := h_nodes h;
     h_connections := h_connections h ++ [cn];
     h_automation := h_automation h |}.

Definition add_automation (ev : automation) (h : host) : host :=
  {| h_clock := h_clock h;
     h_nodes := h_nodes h;
     h_connections := h_connections h;
     h_automation := h_automation h ++ [ev] |}.

Definition set_connections (cns : list connection) (h : host) : host :=
  {| h_clock := h_clock h;
     h_nodes := h_nodes h;
     h_connections := cns;
     h_automation := h_automation h |}.

(** The events scheduled on the gain of node [n], oldest first. *)
Definition events_on (h : host) (n : nat) : list automation :=
  filter (λ ev, a_param ev = n) (h_automation h).

(** The value the gain of node [n] is heading for: the target of the newest
    event scheduled on it, or the value it was created with. *)
Definition target (h : host) (n : nat) : option float :=
  match last (events_on h n) with
  | Some ev => Some (a_target ev)
  | None => n_gain <$> h_nodes h !! n
  end.

(** The part of the host this development does not fix: whether
    [GainNode]'s constructor itself refuses a first argument that is not a
    context, and what [connect] and [disconnect] do with the arguments of a
    caller.  The one thing BypassNode.js relies on is that two gain nodes of
    one context can be connected with the default ports. *)
Class Host : Type := {
  validates_context : bool;
  AudioNode_connect : nat → list value → M host value;
  AudioNode_disconnect : nat → list value → M host value;
  connect_same_context :
    ∀ (h : host) (s d c : nat) (ns nd : GainNodeData),
      h_nodes h !! s = Some ns → h_nodes h !! d = Some nd →
      n_context ns = VContext c → n_context nd = VContext c →
      AudioNode_connect s [VNode d] h
      = (Ok (VNode d), add_connection {| c_source := s; c_args := [VNode d] |} h);
  disconnect_undefined :
    ∀ (h h' : host) (n : nat) (args : list value) (v : value),
      AudioNode_disconnect n args h = (Ok v, h') → v = VUndefined
}.

(** [context.currentTime]. Reading a property of null or undefined throws;
    any other value that is not a context has no such property, and
    undefined converts to NaN where a double is expected. *)
Definition currentTime (context : value) : M host float :=
  match context with
  | VContext c => gets (λ h, seconds (h_clock h c))
  | VUndefined | VNull =>
      throw (TypeError "Cannot read properties of undefined (reading 'currentTime')")
  | _ => ret nan
  end.

(** [node.gain.setTargetAtTime(target, startTime, timeConstant)], with the
    argument checks of the Web Audio API: the three doubles must be finite,
    and the two times must not be negative. *)
Definition setTargetAtTime (n : nat) (tgt startTime timeConstant : float)
  : M host unit :=
  if negb (is_finite tgt && is_finite startTime && is_finite timeConstant)
  then throw (TypeError "The provided double value is non-finite.")
  else if (startTime <? 0)%float || (timeConstant <? 0)%float
  then throw (RangeError "startTime and timeConstant must not be negative")
  else modify (add_automation {| a_param := n; a_target := tgt;
                                 a_startTime := startTime;
                                 a_timeConstant := timeConstant |}).

Section WithHost.
Context `{Host}.

(** [new GainNode(...args)]: the new node's handle. [options.gain] is the
    initial value of the gain, 1 when it is left out. *)
Definition GainNode_new (args : list value) : M host nat :=
  let context := argument 0 args in
  let options := argument 1 args in
  if validates_context && negb (instanceof_BaseAudioContext context)
  then throw (TypeError
    "Failed to construct 'GainNode': argument 1 is not an instance of BaseAudioContext")
  else
    n <- gets (λ h, length (h_nodes h)) ;;
    modify (add_node {| n_context := context;
                        n_gain := match get_prop options "gain" with
                                  | VNumber g => g
                                  | _ => 1
                                  end |}) ;;
    ret n.

(** ** BypassNode.js *)

(** An instance: the GainNode it extends ([self], the input stage) and its
    private fields [#context], [#active], [#bypass], [#subGraphIn],
    [#output]. *)
Record BypassNode : Type := {
  self : nat;
  p_context : value;
  p_active : value;
  p_bypass : nat;
  p_subGraphIn : nat;
  p_output : nat
}.

(** A method runs on the instance and the host together. *)
Definition world : Type := BypassNode * host.

Definition this : M world BypassNode := gets fst.

Definition on_host {A} (m : M host A) : M world A :=
  λ w, let (r, h') := m (snd w) in (r, (fst w, h')).

(** [static parameters = { active: { type: 'boolean', default: false } }] *)
Definition parameters_active_default : value := VBool false.

(** The second formal parameter, [{ active = default } = {}]: an argument
    left out or undefined is replaced by [{}]; null cannot be destructured;
    of anything else the property [active] is read, and the default taken
    when that is undefined. *)
Definition destructure_options (arg : value) : M host value :=
  match arg with
  | VUndefined => ret parameters_active_default
  | VNull => throw (TypeError "Cannot destructure property 'active' of null")
  | _ => match get_prop arg "active" with
         | VUndefined => ret parameters_active_default
         | v => ret v
         end
  end.

(** [new BypassNode(...args)] *)
Definition new_BypassNode (args : list value) : M host BypassNode :=
  let context := argument 0 args in
  active <- destructure_options (argument 1 args) ;;
  self <- GainNode_new [context] ;;                        (* super(context) *)
  if negb (instanceof_BaseAudioContext context)
  then throw (Error
    "Failed to construct BypassNode: argument 1 is not an instance of BaseAudioContext")
  else if negb (is_undefined (argument 1 args)) && negb (isPlainObject (argument 1 args))
  then throw (Error "Failed to construct BypassNode: argument 2 is not an object")
  else
    let p_context := context in
    let p_active := VBool (ToBoolean active) in            (* !!active *)
    p_bypass <- GainNode_new
      [p_context; VPlain [("gain", VNumber (if ToBoolean p_active then 1 else 0))]] ;;
    AudioNode_connect self [VNode p_bypass] ;;             (* super.connect *)
    p_subGraphIn <- GainNode_new
      [p_context; VPlain [("gain", VNumber (if ToBoolean p_active then 0 else 1))]] ;;
    AudioNode_connect self [VNode p_subGraphIn] ;;         (* super.connect *)
    p_output <- GainNode_new [p_context] ;;
    AudioNode_connect p_bypass [VNode p_output] ;;
    ret {| self := self; p_context := p_context; p_active := p_active;
           p_bypass := p_bypass; p_subGraphIn := p_subGraphIn;
           p_output := p_output |}.

(** [get context()] *)
Definition context (b : BypassNode) : value := p_context b.

(** [get subGraphInput()] *)
Definition subGraphInput (b : BypassNode) : nat := p_subGraphIn b.

(** [get subGraphOutput()] *)
Definition subGraphOutput (b : BypassNode) : nat := p_output b.

(** [get active()] *)
Definition active (b : BypassNode) : value := p_active b.

Definition assign_active (v : value) (b : BypassNode) : BypassNode :=
  {| self := self b; p_context := p_context b; p_active := v;
     p_bypass := p_bypass b; p_subGraphIn := p_subGraphIn b;
     p_output := p_output b |}.

(** [set active(value)] *)
Definition set_active (v : value) : M world unit :=
  modify (λ w, (assign_active v (fst w), snd w)) ;;        (* this.#active = value *)
  b <- this ;;
  now <- on_host (currentTime (p_context b)) ;;
  on_host (setTargetAtTime (p_bypass b)
             (if ToBoolean (p_active b) then 1 else 0) now 0.01) ;;
  on_host (setTargetAtTime (p_subGraphIn b)
             (if ToBoolean (p_active b) then 0 else 1) now 0.01).

(** [connect(...args)] *)
Definition connect (args : list value) : M world value :=
  b <- this ;;
  on_host (AudioNode_connect (p_output b) args).

(** [disconnect(...args)]: the result of the inner call is dropped. *)
Definition disconnect (args : list value) : M world value :=
  b <- this ;;
  on_host (AudioNode_disconnect (p_output b) args) ;;
  ret VUndefined.

End WithHost.

(** ** A reference host

    One host that meets the [Host] interface, used to run the class on
    concrete inputs: [connect] refuses a destination that is no node or
    parameter (TypeError), one of another context (InvalidAccessError) and a
    port other than 0 (IndexSizeError); [disconnect] refuses a destination the
    node is not connected to (InvalidAccessError). *)

Definition context_id (v : value) : option nat :=
  match v with VContext c => Some c | _ => None end.

Definition port0 (v : value) : bool :=
  match v with
  | VUndefined => true
  | VNumber x => is_zero x
  | _ => false
  end.

Definition reference_connect (s : nat) (args : list value) : M host value :=
  λ h,
    match h_nodes h !! s with
    | None => (Throw (TypeError "connect: not an AudioNode"), h)
    | Some ns =>
        if negb (port0 (argument 1 args) && port0 (argument 2 args))
        then (Throw (DOMException "IndexSizeError"), h)
        else
          match argument 0 args with
          | VNode d =>
              match h_nodes h !! d with
              | Some nd =>
                  if bool_decide (context_id (n_context ns) = context_id (n_context nd))
                  then (Ok (VNode d),
                        add_connection {| c_source := s; c_args := args |} h)
                  else (Throw (DOMException "InvalidAccessError"), h)
              | None => (Throw (TypeError "connect: destination is not an AudioNode"), h)
              end
          | VParam p =>
              match h_nodes h !! p with
              | Some nd =>
                  if bool_decide (context_id (n_context ns) = context_id (n_context nd))
                  then (Ok VUndefined,
                        add_connection {| c_source := s; c_args := args |} h)
                  else (Throw (DOMException "InvalidAccessError"), h)
              | None => (Throw (TypeError "connect: destination is not an AudioParam"), h)
              end
          | _ => (Throw (TypeError "connect: destination is not an AudioNode"), h)
          end
    end.

Definition same_destination (args : list value) (cn : connection) : bool :=
  match argument 0 args, argument 0 (c_args cn) with
  | VNode d, VNode d' => Nat.eqb d d'
  | VParam p, VParam p' => Nat.eqb p p'
  | _, _ => false
  end.

Definition reference_disconnect (s : nat) (args : list value) : M host value :=
  λ h,
    let hit cn :=
      Nat.eqb (c_source cn) s
      && match args with [] => true | _ => same_destination args cn end in
    match args with
    | _ :: _ =>
        if negb (existsb hit (h_connections h))
        then (Throw (DOMException "InvalidAccessError"), h)
        else (Ok VUndefined,
              set_connections (List.filter (λ cn, negb (hit cn)) (h_connections h)) h)
    | [] =>
        (Ok VUndefined,
         set_connections (List.filter (λ cn, negb (hit cn)) (h_connections h)) h)
    end.

Lemma reference_connect_same_context (h : host) (s d c : nat) (ns nd : GainNodeData) :
  h_nodes h !! s = Some ns → h_nodes h !! d = Some nd →
  n_context ns = VContext c → n_context nd = VContext c →
  reference_connect s [VNode d] h
  = (Ok (VNode d), add_connection {| c_source := s; c_args := [VNode d] |} h).
Proof.
  intros Hs Hd Hcs Hcd. unfold reference_connect.
  rewrite Hs. cbn. rewrite Hd, Hcs, Hcd. cbn.
  by rewrite bool_decide_eq_true_2.
Qed.

Lemma reference_disconnect_undefined (h h' : host) (n : nat) (args : list value) (v : value) :
  reference_disconnect n args h = (Ok v, h') → v = VUndefined.
Proof.
  unfold reference_disconnect. destruct args as [|a args].
  - intros [= <- _]. reflexivity.
  - destruct (negb _); [discriminate|]. intros [= <- _]. reflexivity.
Qed.

(** The host of isomorphic-web-audio-api: [GainNode] checks its context. *)
Definition WebAudioHost : Host :=
  {| validates_context := true;
     AudioNode_connect := reference_connect;
     AudioNode_disconnect := reference_disconnect;
     connect_same_context := reference_connect_same_context;
     disconnect_undefined := reference_disconnect_undefined |}.

(** The same host with a [GainNode] that would construct on anything. *)
Definition LenientHost : Host :=
  {| validates_context := false;
     AudioNode_connect := reference_connect;
     AudioNode_disconnect := reference_disconnect;
     connect_same_context := reference_connect_same_context;
     disconnect_undefined := reference_disconnect_undefined |}.

Definition time0 : time := {| seconds := 0; seconds_ok := eq_refl |}.

(** A host on which nothing has happened yet. *)
Definition host0 : host :=
  {| h_clock := λ _, time0; h_nodes := []; h_connections := []; h_automation := [] |}.

(** ** Reading the model *)

(** What the destructuring of the second argument binds [active] to, when it
    does not throw. *)
Definition destructured (arg : value) : value :=
  match arg with
  | VUndefined | VNull => parameters_active_default
  | _ => match get_prop arg "active" with
         | VUndefined => parameters_active_default
         | v => v
         end
  end.

Definition gain_node (c : nat) (g : float) : GainNodeData :=
  {| n_context := VContext c; n_gain := g |}.

Definition wire (s d : nat) : connection :=
  {| c_source := s; c_args := [VNode d] |}.

(** The instance a successful construction returns on a host that had [n]
    nodes. *)
Definition built (c : nat) (a : bool) (n : nat) : BypassNode :=
  {| self := n; p_context := VContext c; p_active := VBool a;
     p_bypass := n + 1; p_subGraphIn := n + 2; p_output := n + 3 |}.

(** The host after a successful construction: four nodes more (the instance
    itself and its three stages), three connections more. *)
Definition wired (c : nat) (a : bool) (h : host) : host :=
  let n := length (h_nodes h) in
  {| h_clock := h_clock h;
     h_nodes := h_nodes h ++ [gain_node c 1;
                              gain_node c (if a then 1 else 0);
                              gain_node c (if a then 0 else 1);
                              gain_node c 1];
     h_connections := h_connections h ++ [wire n (n + 1); wire n (n + 2);
                                          wire (n + 1) (n + 3)];
     h_automation := h_automation h |}.

(** The event one call [setTargetAtTime(tgt, now, 0.01)] of the setter leaves
    on the gain of node [n]. *)
Definition ramp (n : nat) (tgt now : float) : automation :=
  {| a_param := n; a_target := tgt; a_startTime := now; a_timeConstant := 0.01 |}.

(** ** Instances to run the model on *)

(** [new BypassNode(audioContext)] on the empty host, and the same with
    [{ active: true }] for options. *)
Definition fresh_world : world := (built 0 false 0, wired 0 false host0).

Definition fresh_active_world : world := (built 0 true 0, wired 0 true host0).

(** [bypass.active = true] on [fresh_world]. *)
Definition toggled_world : world :=
  (assign_active (VBool true) (built 0 false 0),
   add_automation (ramp 2 0 0)
     (add_automation (ramp 1 1 0) (wired 0 false host0))).

(** A host is well formed when its connections and automation events are on
    nodes it has created. *)
Definition host_wf (h : host) : Prop :=
  Forall (λ cn, c_source cn < length (h_nodes h)) (h_connections h)
  ∧ Forall (λ ev, a_param ev < length (h_nodes h)) (h_automation h).

(** What the rest of the program may do to the host between two calls on an
    instance: time passes, nodes are created, connections are made and undone,
    other parameters are automated.  The gains of the three private stages
    are left to the instance. *)
Definition environment (b : BypassNode) (h h' : host) : Prop :=
  (∃ more, h_nodes h' = h_nodes h ++ more)
  ∧ ∀ n, n ∈ [p_bypass b; p_subGraphIn b; p_output b] →
         events_on h' n = events_on h n.

(** The states an instance and its host go through: construction on a well
    formed host, assignments to [active], and steps of the environment. *)
Inductive reachable `{Host} : world → Prop :=
| reach_new (args : list value) (h h' : host) (b : BypassNode) :
    host_wf h → new_BypassNode args h = (Ok b, h') → reachable (b, h')
| reach_set (v : value) (w w' : world) (r : outcome unit) :
    reachable w → set_active v w = (r, w') → reachable w'
| reach_env (b : BypassNode) (h h' : host) :
    reachable (b, h) → environment b h h' → reachable (b, h').

(** What every reachable state satisfies (see [reachable_inv]). *)
Record inv (w : world) : Prop := {
  inv_context : ∃ c, p_context (fst w) = VContext c;
  inv_distinct : NoDup [p_bypass (fst w); p_subGraphIn (fst w); p_output (fst w)];
  inv_bypass : target (snd w) (p_bypass (fst w))
               = Some (if ToBoolean (p_active (fst w)) then 1 else 0)%float;
  inv_subGraphIn : target (snd w) (p_subGraphIn (fst w))
                   = Some (if ToBoolean (p_active (fst w)) then 0 else 1)%float;
  inv_output : n_gain <$> h_nodes (snd w) !! p_output (fst w) = Some 1%float;
  inv_output_events : events_on (snd w) (p_output (fst w)) = [];
  inv_created : Forall (λ n, n < length (h_nodes (snd w)))
                  [p_bypass (fst w); p_subGraphIn (fst w); p_output (fst w)]
}.

(** ** Lemmas on the host primitives *)

Section Primitives.
Context `{Host}.

Lemma destructure_options_ok (arg : value) (h : host) :
  arg ≠ VNull → destructure_options arg h = (Ok (destructured arg), h).
Proof.
  intros Hnull. destruct arg; try done; cbn.
  destruct (default VUndefined (assoc "active" fields)); reflexivity.
Qed.

Lemma wired_eq (c : nat) (a : bool) (h : host) :
  let n := length (h_nodes h) in
  add_connection (wire (n + 1) (n + 3))
    (add_node (gain_node c 1)
       (add_connection (wire n (n + 2))
          (add_node (gain_node c (if a then 0 else 1))
             (add_connection (wire n (n + 1))
                (add_node (gain_node c (if a then 1 else 0))
                   (add_node (gain_node c 1) h))))))
  = wired c a h.
Proof.
  unfold wired, add_connection, add_node. cbn.
  f_equal; rewrite <- ?app_assoc; reflexivity.
Qed.

End Primitives.

(** ** The constructor, case by case *)

Section Constructor.
Context `{Host}.

Lemma nodes_add_connection (cn : connection) (h : host) :
  h_nodes (add_connection cn h) = h_nodes h.
Proof. reflexivity. Qed.

Lemma lookup_add_node_new (nd : GainNodeData) (h : host) :
  h_nodes (add_node nd h) !! length (h_nodes h) = Some nd.
Proof. cbn. by rewrite lookup_app_r, Nat.sub_diag. Qed.

Lemma lookup_add_node_old (nd x : GainNodeData) (h : host) (i : nat) :
  h_nodes h !! i = Some x → h_nodes (add_node nd h) !! i = Some x.
Proof. intros Hi. cbn. by apply lookup_app_l_Some. Qed.

Lemma length_add_node (nd : GainNodeData) (h : host) :
  length (h_nodes (add_node nd h)) = length (h_nodes h) + 1.
Proof. cbn. by rewrite length_app. Qed.

(** Connecting a node to the one created last, both of context [c]. *)
Lemma connect_to_new (c s : nat) (g : float) (ns : GainNodeData) (h : host) :
  h_nodes h !! s = Some ns → n_context ns = VContext c →
  AudioNode_connect s [VNode (length (h_nodes h))] (add_node (gain_node c g) h)
  = (Ok (VNode (length (h_nodes h))),
     add_connection (wire s (length (h_nodes h))) (add_node (gain_node c g) h)).
Proof.
  intros Hs Hc.
  apply (connect_same_context _ _ _ c ns (gain_node c g)); try done.
  - by apply lookup_add_node_old.
  - apply lookup_add_node_new.
Qed.

Lemma GainNode_new_default (c : nat) (h : host) :
  GainNode_new [VContext c] h
  = (Ok (length (h_nodes h)), add_node (gain_node c 1) h).
Proof. unfold GainNode_new. cbn. rewrite andb_false_r. reflexivity. Qed.

Lemma GainNode_new_gain (c : nat) (g : float) (h : host) :
  GainNode_new [VContext c; VPlain [("gain", VNumber g)]] h
  = (Ok (length (h_nodes h)), add_node (gain_node c g) h).
Proof. unfold GainNode_new. cbn. rewrite andb_false_r. reflexivity. Qed.

(** Valid arguments: the instance is built and wired. *)
Lemma new_BypassNode_ok (args : list value) (c : nat) (h : host) :
  argument 0 args = VContext c →
  is_undefined (argument 1 args) || isPlainObject (argument 1 args) = true →
  new_BypassNode args h
  = (Ok (built c (ToBoolean (destructured (argument 1 args))) (length (h_nodes h))),
     wired c (ToBoolean (destructured (argument 1 args))) h).
Proof.
  intros Hc Hopt. unfold new_BypassNode. rewrite Hc.
  assert (Hnull : argument 1 args ≠ VNull) by (intros E; rewrite E in Hopt; done).
  assert (Hguard : negb (is_undefined (argument 1 args))
                   && negb (isPlainObject (argument 1 args)) = false).
  { destruct (is_undefined _), (isPlainObject _); done. }
  unfold bind at 1. rewrite (destructure_options_ok _ _ Hnull).
  unfold bind at 1. rewrite GainNode_new_default.
  cbn [instanceof_BaseAudioContext negb ToBoolean]. rewrite Hguard.
  set (a := ToBoolean (destructured (argument 1 args))).
  rewrite <- wired_eq. cbv zeta.
  set (n := length (h_nodes h)).
  set (h1 := add_node _ h).
  assert (Hself : h_nodes h1 !! n = Some (gain_node c 1))
    by apply lookup_add_node_new.
  assert (Hlen1 : length (h_nodes h1) = n + 1) by apply length_add_node.
  (* #bypass *)
  unfold bind at 1. rewrite GainNode_new_gain.
  unfold bind at 1. rewrite (connect_to_new c n _ _ h1 Hself eq_refl).
  set (h2 := add_connection _ (add_node _ h1)).
  assert (Hself2 : h_nodes h2 !! n = Some (gain_node c 1))
    by (by apply lookup_add_node_old).
  assert (Hbypass : h_nodes h2 !! length (h_nodes h1)
                    = Some (gain_node c (if a then 1 else 0)%float))
    by apply lookup_add_node_new.
  assert (Hlen2 : length (h_nodes h2) = n + 2).
  { unfold h2. rewrite nodes_add_connection, length_add_node. lia. }
  (* #subGraphIn *)
  unfold bind at 1. rewrite GainNode_new_gain.
  unfold bind at 1. rewrite (connect_to_new c n _ _ h2 Hself2 eq_refl).
  set (h3 := add_connection _ (add_node _ h2)).
  assert (Hbypass3 : h_nodes h3 !! length (h_nodes h1)
                     = Some (gain_node c (if a then 1 else 0)%float))
    by (by apply lookup_add_node_old).
  assert (Hlen3 : length (h_nodes h3) = n + 3).
  { unfold h3. rewrite nodes_add_connection, length_add_node. lia. }
  (* #output *)
  unfold bind at 1. rewrite GainNode_new_default.
  unfold bind at 1.
  rewrite (connect_to_new c (length (h_nodes h1)) _ _ h3 Hbypass3 eq_refl).
  unfold ret. rewrite Hlen3. unfold h3. rewrite Hlen2. unfold h2.
  rewrite Hlen1. reflexivity.
Qed.

(** A null second argument: the destructuring throws before [super]. *)
Lemma new_BypassNode_null (args : list value) (h : host) :
  argument 1 args = VNull →
  ∃ msg, new_BypassNode args h = (Throw (TypeError msg), h).
Proof.
  intros Hnull. unfold new_BypassNode, bind. rewrite Hnull.
  eexists. reflexivity.
Qed.

(** A first argument that is no context: the host's constructor throws, and
    where it does not, the guard on argument 1 does. *)
Lemma new_BypassNode_bad_context (args : list value) (h : host) :
  argument 1 args ≠ VNull →
  instanceof_BaseAudioContext (argument 0 args) = false →
  if validates_context
  then ∃ msg, new_BypassNode args h = (Throw (TypeError msg), h)
  else ∃ nd, new_BypassNode args h
             = (Throw (Error
  "Failed to construct BypassNode: argument 1 is not an instance of BaseAudioContext"),
                add_node nd h).
Proof.
  intros Hnull Hc.
  destruct validates_context eqn:Hv;
    unfold new_BypassNode;
    (unfold bind at 1; rewrite (destructure_options_ok _ _ Hnull));
    unfold bind at 1; unfold GainNode_new;
    change (argument 0 [argument 0 args]) with (argument 0 args);
    rewrite Hv, Hc; cbn; eexists; reflexivity.
Qed.

(** A context, then something that is neither undefined nor a plain object:
    the guard on argument 2 throws, after [super] has made the node. *)
Lemma new_BypassNode_bad_options (args : list value) (c : nat) (h : host) :
  argument 0 args = VContext c →
  argument 1 args ≠ VNull →
  is_undefined (argument 1 args) || isPlainObject (argument 1 args) = false →
  new_BypassNode args h
  = (Throw (Error "Failed to construct BypassNode: argument 2 is not an object"),
     add_node (gain_node c 1) h).
Proof.
  intros Hc Hnull Hopt. unfold new_BypassNode. rewrite Hc.
  unfold bind at 1. rewrite (destructure_options_ok _ _ Hnull).
  unfold bind at 1. rewrite GainNode_new_default.
  cbn [instanceof_BaseAudioContext negb].
  apply orb_false_elim in Hopt as [-> ->]. reflexivity.
Qed.

Lemma null_or_not (v : value) : v = VNull ∨ v ≠ VNull.
Proof. destruct v; auto. Qed.

Lemma not_context (v : value) :
  instanceof_BaseAudioContext v = false ∨ ∃ c, v = VContext c.
Proof. destruct v; eauto. Qed.

(** Whatever the arguments, a construction that throws has made no
    connection and scheduled nothing; it has created at most the node of
    [super]. *)
Lemma new_BypassNode_throw (args : list value) (h h' : host) (e : exn) :
  new_BypassNode args h = (Throw e, h') →
  h_connections h' = h_connections h
  ∧ h_automation h' = h_automation h
  ∧ h_clock h' = h_clock h
  ∧ (h_nodes h' = h_nodes h ∨ ∃ nd, h_nodes h' = h_nodes h ++ [nd]).
Proof.
  intros Hnew.
  destruct (null_or_not (argument 1 args)) as [Hnull|Hnull].
  { destruct (new_BypassNode_null args h Hnull) as [msg Hm].
    rewrite Hm in Hnew. injection Hnew as _ <-. auto. }
  destruct (not_context (argument 0 args)) as [Hc|[c Hc]].
  { pose proof (new_BypassNode_bad_context args h Hnull Hc) as Hbad.
    destruct validates_context; destruct Hbad as [x Hx];
      rewrite Hx in Hnew; injection Hnew as _ <-; cbn; eauto 6. }
  destruct (is_undefined (argument 1 args) || isPlainObject (argument 1 args))
    eqn:Hopt.
  - rewrite (new_BypassNode_ok args c h Hc Hopt) in Hnew. discriminate.
  - rewrite (new_BypassNode_bad_options args c h Hc Hnull Hopt) in Hnew.
    injection Hnew as _ <-. cbn. eauto 6.
Qed.

(** A construction that returns was given a context and admissible options,
    and its result is the one of [new_BypassNode_ok]. *)
Lemma new_BypassNode_inv (args : list value) (h h' : host) (b : BypassNode) :
  new_BypassNode args h = (Ok b, h') →
  ∃ c a, argument 0 args = VContext c
         ∧ a = ToBoolean (destructured (argument 1 args))
         ∧ b = built c a (length (h_nodes h))
         ∧ h' = wired c a h.
Proof.
  intros Hnew.
  destruct (null_or_not (argument 1 args)) as [Hnull|Hnull].
  { destruct (new_BypassNode_null args h Hnull) as [msg Hm]. congruence. }
  destruct (not_context (argument 0 args)) as [Hc|[c Hc]].
  { pose proof (new_BypassNode_bad_context args h Hnull Hc) as Hbad.
    destruct validates_context; destruct Hbad as [x Hx]; congruence. }
  destruct (is_undefined (argument 1 args) || isPlainObject (argument 1 args))
    eqn:Hopt.
  - rewrite (new_BypassNode_ok args c h Hc Hopt) in Hnew.
    injection Hnew as <- <-. eauto 6.
  - rewrite (new_BypassNode_bad_options args c h Hc Hnull Hopt) in Hnew.
    discriminate.
Qed.

End Constructor.

(** ** Automation events and targets *)

Lemma events_on_add (ev : automation) (h : host) (n : nat) :
  events_on (add_automation ev h) n
  = events_on h n ++ (if decide (a_param ev = n) then [ev] else []).
Proof.
  unfold events_on. cbn. rewrite filter_app. reflexivity.
Qed.

Lemma events_on_add_other (ev : automation) (h : host) (n : nat) :
  a_param ev ≠ n → events_on (add_automation ev h) n = events_on h n.
Proof.
  intros Hne. rewrite events_on_add. rewrite decide_False by done.
  apply app_nil_r.
Qed.

Lemma target_add_same (ev : automation) (h : host) :
  target (add_automation ev h) (a_param ev) = Some (a_target ev).
Proof.
  unfold target. rewrite events_on_add. rewrite decide_True by done.
  by rewrite last_snoc.
Qed.

Lemma target_add_other (ev : automation) (h : host) (n : nat) :
  a_param ev ≠ n → target (add_automation ev h) n = target h n.
Proof.
  intros Hne. unfold target. by rewrite events_on_add_other.
Qed.

Lemma events_on_fresh (h : host) (n : nat) :
  host_wf h → length (h_nodes h) ≤ n → events_on h n = [].
Proof.
  intros [_ Hev] Hn. unfold events_on.
  induction Hev as [|ev evs Hlt _ IH]; [done|].
  rewrite filter_cons. rewrite decide_False by lia. exact IH.
Qed.

Lemma target_no_events (h : host) (n : nat) :
  events_on h n = [] → target h n = n_gain <$> h_nodes h !! n.
Proof. intros Hev. unfold target. by rewrite Hev. Qed.

Lemma lookup_wired (c : nat) (a : bool) (h : host) (k : nat) :
  h_nodes (wired c a h) !! (length (h_nodes h) + k)
  = [gain_node c 1; gain_node c (if a then 1 else 0)%float;
     gain_node c (if a then 0 else 1)%float; gain_node c 1] !! k.
Proof.
  cbn [wired h_nodes]. rewrite lookup_app_r by lia. f_equal. lia.
Qed.

(** ** The setter, step by step *)

Lemma setTargetAtTime_ok (n : nat) (tgt : float) (t : time) (h : host) :
  is_finite tgt = true →
  setTargetAtTime n tgt (seconds t) 0.01 h
  = (Ok tt, add_automation (ramp n tgt (seconds t)) h).
Proof.
  intros Htgt. unfold setTargetAtTime. rewrite Htgt.
  destruct (andb_prop _ _ (seconds_ok t)) as [-> Hneg].
  apply negb_true_iff in Hneg. rewrite Hneg. reflexivity.
Qed.

Lemma finite_01 (a : bool) :
  is_finite (if a then 1 else 0)%float = true
  ∧ is_finite (if a then 0 else 1)%float = true.
Proof. destruct a; split; reflexivity. Qed.

(** On an instance whose [#context] is a context, the setter returns, and
    this is all it does. *)
Lemma set_active_ok (v : value) (b : BypassNode) (h : host) (c : nat) :
  p_context b = VContext c →
  set_active v (b, h)
  = (Ok tt,
     (assign_active v b,
      add_automation
        (ramp (p_subGraphIn b) (if ToBoolean v then 0 else 1) (seconds (h_clock h c)))
        (add_automation
           (ramp (p_bypass b) (if ToBoolean v then 1 else 0) (seconds (h_clock h c)))
           h))).
Proof.
  intros Hc. unfold set_active, bind, modify, this, gets, on_host. cbn.
  rewrite Hc. cbn.
  destruct (finite_01 (ToBoolean v)) as [Hb Hs].
  rewrite (setTargetAtTime_ok _ _ _ _ Hb).
  change (h_clock h c) with (h_clock (add_automation
    (ramp (p_bypass b) (if ToBoolean v then 1 else 0) (seconds (h_clock h c))) h) c) at 2.
  rewrite (setTargetAtTime_ok _ _ _ _ Hs). reflexivity.
Qed.

(** ** The invariant of reachable states *)

Lemma NoDup_3 (x y z : nat) : NoDup [x; y; z] ↔ x ≠ y ∧ x ≠ z ∧ y ≠ z.
Proof.
  rewrite !NoDup_cons, NoDup_nil, !not_elem_of_cons.
  pose proof (not_elem_of_nil x). pose proof (not_elem_of_nil y).
  pose proof (not_elem_of_nil z). tauto.
Qed.

Section Invariant.
Context `{Host}.

Lemma inv_new (args : list value) (h h' : host) (b : BypassNode) :
  host_wf h → new_BypassNode args h = (Ok b, h') → inv (b, h').
Proof.
  intros Hwf Hnew.
  destruct (new_BypassNode_inv _ _ _ _ Hnew) as (c & a & _ & _ & -> & ->).
  assert (Hfresh : ∀ k, events_on (wired c a h) (length (h_nodes h) + k) = []).
  { intros k. apply (events_on_fresh h); [done | lia]. }
  split; cbn [fst snd built p_context p_active p_bypass p_subGraphIn p_output ToBoolean].
  - eauto.
  - apply NoDup_3. lia.
  - rewrite target_no_events by apply Hfresh. by rewrite lookup_wired.
  - rewrite target_no_events by apply Hfresh. by rewrite lookup_wired.
  - by rewrite lookup_wired.
  - apply Hfresh.
  - cbn [wired h_nodes]. rewrite length_app. cbn [length].
    repeat (constructor; [lia|]). constructor.
Qed.

Lemma inv_set (v : value) (w w' : world) (r : outcome unit) :
  inv w → set_active v w = (r, w') → inv w'.
Proof.
  destruct w as [b h]. intros [[c Hc] Hnd Hb Hs Ho Hoe Hlt] Hset.
  cbn [fst snd] in *.
  rewrite (set_active_ok v b h c Hc) in Hset. injection Hset as _ <-.
  pose proof Hnd as (Hbs & Hbo & Hso)%NoDup_3.
  split; cbn [fst snd assign_active p_context p_active p_bypass p_subGraphIn p_output].
  - eauto.
  - exact Hnd.
  - rewrite target_add_other by (cbn; congruence).
    apply (target_add_same (ramp (p_bypass b) _ _)).
  - apply (target_add_same (ramp (p_subGraphIn b) _ _)).
  - exact Ho.
  - rewrite !events_on_add_other by (cbn; congruence). exact Hoe.
  - exact Hlt.
Qed.

Lemma inv_env (b : BypassNode) (h h' : host) :
  inv (b, h) → environment b h h' → inv (b, h').
Proof.
  intros [Hc Hnd Hb Hs Ho Hoe Hlt] [[more Hnodes] Hev]. cbn [fst snd] in *.
  assert (Hlook : ∀ n, n ∈ [p_bypass b; p_subGraphIn b; p_output b] →
                       h_nodes h' !! n = h_nodes h !! n).
  { intros n Hn. rewrite Hnodes. apply lookup_app_l.
    rewrite Forall_forall in Hlt. by apply Hlt. }
  assert (Htarget : ∀ n, n ∈ [p_bypass b; p_subGraphIn b; p_output b] →
                         target h' n = target h n).
  { intros n Hn. unfold target. by rewrite Hev, Hlook. }
  split; cbn [fst snd]; try done.
  - rewrite Htarget by repeat constructor. exact Hb.
  - rewrite Htarget by repeat constructor. exact Hs.
  - rewrite Hlook by repeat constructor. exact Ho.
  - rewrite Hev by repeat constructor. exact Hoe.
  - rewrite Hnodes, length_app. eapply Forall_impl; [exact Hlt|].
    cbn. intros; lia.
Qed.

Lemma reachable_inv (w : world) : reachable w → inv w.
Proof.
  induction 1 as [args h h' b Hwf Hnew | v w w' r _ IH Hset | b h h' _ IH Henv].
  - by eapply inv_new.
  - by eapply inv_set.
  - by eapply inv_env.
Qed.

End Invariant.

(** ** The model on concrete inputs *)

Lemma host0_wf : host_wf host0.
Proof. split; constructor. Defined.

Lemma fresh_world_reachable : reachable (H := WebAudioHost) fresh_world.
Proof.
  apply (reach_new [VContext 0] host0 _ _ host0_wf). reflexivity.
Defined.

Lemma toggled_world_reachable : reachable (H := WebAudioHost) toggled_world.
Proof.
  apply (reach_set (VBool true) fresh_world _ (Ok tt) fresh_world_reachable).
  reflexivity.
Defined.

(** The cases of tests/BypassNode.spec.js that do not render audio. *)

Example throws_if_argument_1_is_not_a_context :
  Forall (λ arg, ∃ e h, new_BypassNode (H := WebAudioHost) [arg] host0 = (Throw e, h))
    [VPlain []; VNull; VString "string"; VNumber 1; VNumber nan].
Proof.
  repeat (apply Forall_cons_2; [do 2 eexists; vm_compute; reflexivity|]).
  apply Forall_nil_2.
Qed.

Example succeeds_if_only_argument_1_is_given :
  ∃ b h, new_BypassNode (H := WebAudioHost) [VContext 0] host0 = (Ok b, h)
         ∧ active b = VBool false.
Proof. do 2 eexists. split; [vm_compute; reflexivity | reflexivity]. Qed.

Example throws_if_argument_2_is_not_an_object :
  Forall (λ arg, ∃ e h,
            new_BypassNode (H := WebAudioHost) [VContext 0; arg] host0 = (Throw e, h))
    [VNull; VString "string"; VNumber 1; VNumber nan].
Proof.
  repeat (apply Forall_cons_2; [do 2 eexists; vm_compute; reflexivity|]).
  apply Forall_nil_2.
Qed.

Example succeeds_with_active_true :
  new_BypassNode (H := WebAudioHost)
    [VContext 0; VPlain [("active", VBool true)]] host0
  = (Ok (fst fresh_active_world), snd fresh_active_world)
  ∧ active (fst fresh_active_world) = VBool true.
Proof. split; reflexivity. Qed.

(** On a host whose [GainNode] would accept anything, the guard of the class
    on argument 1 is what rejects a non-context. *)
Example lenient_host_guard :
  ∃ h, new_BypassNode (H := LenientHost) [VPlain []] host0
       = (Throw (Error
  "Failed to construct BypassNode: argument 1 is not an instance of BaseAudioContext"), h).
Proof. eexists. vm_compute. reflexivity. Qed.

Lemma float_1_neq_0 : 1%float ≠ 0%float.
Proof. intros E. assert (is_zero 1 = is_zero 0) as E' by (by rewrite E). discriminate E'. Qed.

(** * The properties of the specification *)

Section Claims.
Context `{Host}.

(** C1. In every state an instance goes through (after construction, after
    any assignment to [active], whatever the rest of the program does to the
    host in between), the gain of [#bypass] is heading for 1 if [active] is
    truthy and for 0 otherwise, the gain of [#subGraphIn] for the complement;
    the two targets add up to 1, and they are never both 1 nor both 0. *)
Theorem C1_targets_complementary (b : BypassNode) (h : host) :
  reachable (b, h) →
  ∃ tb ts : float,
    target h (p_bypass b) = Some tb
    ∧ target h (subGraphInput b) = Some ts
    ∧ tb = (if ToBoolean (active b) then 1 else 0)%float
    ∧ ts = (if ToBoolean (active b) then 0 else 1)%float
    ∧ (tb + ts)%float = 1%float
    ∧ ¬ (tb = 1%float ∧ ts = 1%float)
    ∧ ¬ (tb = 0%float ∧ ts = 0%float).
Proof.
  intros Hreach. destruct (reachable_inv _ Hreach) as [_ _ Hb Hs _ _ _].
  cbn [fst snd] in Hb, Hs.
  eexists _, _. split; [exact Hb|]. split; [exact Hs|].
  unfold active. pose proof float_1_neq_0.
  destruct (ToBoolean (p_active b)); repeat split; try reflexivity;
    intros [? ?]; congruence.
Qed.

(** C2. On an instance in any reachable state, [active = v] returns and
    appends exactly two events to the host's automation log: first one on
    the gain of [#bypass], toward 1 if [v] is truthy and 0 otherwise, then
    one on the gain of [#subGraphIn], toward the complement; both start at
    the one reading of the context's [currentTime] and both have the time
    constant 0.01. *)
Theorem C2_setter_schedules_two_ramps (v : value) (b : BypassNode) (h : host) :
  reachable (b, h) →
  ∃ (c : nat) (b' : BypassNode) (h' : host),
    context b = VContext c
    ∧ set_active v (b, h) = (Ok tt, (b', h'))
    ∧ h_automation h'
      = h_automation h
        ++ [ {| a_param := p_bypass b;
                a_target := if ToBoolean v then 1 else 0;
                a_startTime := seconds (h_clock h c);
                a_timeConstant := 0.01 |};
             {| a_param := subGraphInput b;
                a_target := if ToBoolean v then 0 else 1;
                a_startTime := seconds (h_clock h c);
                a_timeConstant := 0.01 |} ].
Proof.
  intros Hreach. destruct (reachable_inv _ Hreach) as [[c Hc] _ _ _ _ _ _].
  cbn [fst] in Hc. exists c. eexists _, _.
  split; [exact Hc|]. split; [apply (set_active_ok v b h c Hc)|].
  cbn. rewrite <- app_assoc. reflexivity.
Qed.

(** C4. A construction that returns has made, on a well formed host, exactly
    three connections: the instance (its own input stage) to [#bypass], the
    instance to [#subGraphIn], and [#bypass] to [#output].  No connection
    leaves [#subGraphIn]; in particular it is not connected to [#output].
    [subGraphInput] is the stage created with gain 0 if active and 1
    otherwise, [subGraphOutput] the one created with the default gain 1. *)
Theorem C4_constructor_wiring (args : list value) (h h' : host) (b : BypassNode) :
  host_wf h →
  new_BypassNode args h = (Ok b, h') →
  h_connections h'
  = h_connections h
    ++ [ wire (self b) (p_bypass b);
         wire (self b) (subGraphInput b);
         wire (p_bypass b) (subGraphOutput b) ]
  ∧ (wire (subGraphInput b) (subGraphOutput b) ∉ h_connections h')
  ∧ (∀ cn, cn ∈ h_connections h' → c_source cn ≠ subGraphInput b)
  ∧ NoDup [self b; p_bypass b; subGraphInput b; subGraphOutput b]
  ∧ ∃ c a, active b = VBool a
      ∧ h_nodes h' !! p_bypass b = Some (gain_node c (if a then 1 else 0))
      ∧ h_nodes h' !! subGraphInput b = Some (gain_node c (if a then 0 else 1))
      ∧ h_nodes h' !! subGraphOutput b = Some (gain_node c 1).
Proof.
  intros [Hcn _] Hnew.
  destruct (new_BypassNode_inv _ _ _ _ Hnew) as (c & a & _ & _ & -> & ->).
  unfold subGraphInput, subGraphOutput, active.
  cbn [built self p_bypass p_subGraphIn p_output p_active wired h_connections].
  set (n := length (h_nodes h)).
  assert (Hsrc : ∀ cn, cn ∈ h_connections h
                         ++ [wire n (n + 1); wire n (n + 2); wire (n + 1) (n + 3)] →
                       c_source cn ≠ n + 2).
  { intros cn [Hin|Hin]%elem_of_app.
    - rewrite Forall_forall in Hcn. specialize (Hcn cn Hin). fold n in Hcn. lia.
    - rewrite !elem_of_cons, elem_of_nil in Hin.
      destruct Hin as [->|[->|[->|[]]]]; cbn; lia. }
  split; [reflexivity|]. split; [|split; [exact Hsrc|split]].
  - intros Hin. by apply (Hsrc _ Hin).
  - rewrite !NoDup_cons, NoDup_nil, !not_elem_of_cons.
    pose proof (not_elem_of_nil (A := nat)) as Hnil.
    repeat split; try lia; apply Hnil.
  - exists c, a. split; [reflexivity|].
    pose proof (lookup_wired c a h) as Hw. fold n in Hw.
    rewrite (Hw 1), (Hw 2), (Hw 3). done.
Qed.

(** C5. When the first argument is not an instance of BaseAudioContext,
    the construction throws, whatever the second argument and the host: the
    TypeError of destructuring null when the second argument is null;
    otherwise the TypeError of the host's [GainNode] constructor, or, on a
    host that lets the value through, the Error of the guard on argument 1.
    No connection has been made. *)
Theorem C5_invalid_context_throws (args : list value) (h : host) :
  instanceof_BaseAudioContext (argument 0 args) = false →
  ∃ (e : exn) (h' : host),
    new_BypassNode args h = (Throw e, h')
    ∧ h_connections h' = h_connections h
    ∧ ((∃ msg, e = TypeError msg
               ∧ (argument 1 args = VNull ∨ validates_context = true))
       ∨ (e = Error
  "Failed to construct BypassNode: argument 1 is not an instance of BaseAudioContext"
          ∧ argument 1 args ≠ VNull ∧ validates_context = false)).
Proof.
  intros Hc.
  destruct (null_or_not (argument 1 args)) as [Hnull|Hnull].
  { destruct (new_BypassNode_null args h Hnull) as [msg Hm].
    exists (TypeError msg), h. eauto 8. }
  pose proof (new_BypassNode_bad_context args h Hnull Hc) as Hbad.
  destruct validates_context; destruct Hbad as [x Hx].
  - exists (TypeError x), h. eauto 8.
  - eexists _, _. split; [exact Hx|]. split; [reflexivity|]. right. auto.
Qed.

(** C6. With a context as first argument: a second argument that is
    supplied (not undefined) and is not a plain object makes the
    construction throw, the Error of the guard on argument 2, or for null
    the TypeError of the destructuring; without a second argument, or with
    undefined, the construction returns an instance whose [active] is
    false. *)
Theorem C6_options_validation (args : list value) (c : nat) (h : host) :
  argument 0 args = VContext c →
  (is_undefined (argument 1 args) = false →
   isPlainObject (argument 1 args) = false →
   ∃ (e : exn) (h' : host),
     new_BypassNode args h = (Throw e, h')
     ∧ h_connections h' = h_connections h
     ∧ ((argument 1 args ≠ VNull
         ∧ e = Error "Failed to construct BypassNode: argument 2 is not an object")
        ∨ (argument 1 args = VNull ∧ ∃ msg, e = TypeError msg)))
  ∧ (is_undefined (argument 1 args) = true →
     ∃ (b : BypassNode) (h' : host),
       new_BypassNode args h = (Ok b, h') ∧ active b = VBool false).
Proof.
  intros Hc. split.
  - intros Hu Hp.
    destruct (null_or_not (argument 1 args)) as [Hnull|Hnull].
    + destruct (new_BypassNode_null args h Hnull) as [msg Hm].
      exists (TypeError msg), h. eauto 8.
    + eexists _, _. split.
      * apply (new_BypassNode_bad_options args c h Hc Hnull). by rewrite Hu, Hp.
      * split; [reflexivity|]. left. auto.
  - intros Hu. eexists _, _. split.
    + apply (new_BypassNode_ok args c h Hc). by rewrite Hu.
    + destruct (argument 1 args); try discriminate. reflexivity.
Qed.

(** C7. For all arguments, on every host, the construction either returns,
    having created the instance's node and its three gain stages and made
    the three connections, or throws without having made any connection or
    scheduled anything (at most the node of [super] exists by then). *)
Theorem C7_construction_atomic (args : list value) (h : host) :
  let n := length (h_nodes h) in
  (∃ (c : nat) (a : bool) (b : BypassNode) (h' : host),
     new_BypassNode args h = (Ok b, h')
     ∧ context b = VContext c ∧ active b = VBool a
     ∧ self b = n ∧ p_bypass b = n + 1 ∧ p_subGraphIn b = n + 2 ∧ p_output b = n + 3
     ∧ h_nodes h' = h_nodes h ++ [gain_node c 1;
                                  gain_node c (if a then 1 else 0);
                                  gain_node c (if a then 0 else 1);
                                  gain_node c 1]
     ∧ h_connections h' = h_connections h ++ [wire n (n + 1); wire n (n + 2);
                                              wire (n + 1) (n + 3)])
  ∨ (∃ (e : exn) (h' : host),
       new_BypassNode args h = (Throw e, h')
       ∧ h_connections h' = h_connections h
       ∧ h_automation h' = h_automation h
       ∧ (h_nodes h' = h_nodes h ∨ ∃ nd, h_nodes h' = h_nodes h ++ [nd])).
Proof.
  intros n. destruct (new_BypassNode args h) as [[b|e] h'] eqn:Hnew.
  - left. destruct (new_BypassNode_inv _ _ _ _ Hnew) as (c & a & _ & _ & -> & ->).
    exists c, a. eexists _, _. split; [reflexivity|]. by repeat split.
  - right. destruct (new_BypassNode_throw _ _ _ _ Hnew) as (Hc & Ha & _ & Hn).
    eexists _, _. eauto.
Qed.

(** C8. An assignment to [active] on an instance in a reachable state
    leaves the instance's node handles, the host's nodes and the host's
    connections as they were; the gain of [#output] still has the value 1 it
    was created with and no event scheduled on it; and the events on every
    gain other than those of [#bypass] and [#subGraphIn] are unchanged. *)
Theorem C8_setter_frame (v : value) (b b' : BypassNode) (h h' : host)
    (r : outcome unit) :
  reachable (b, h) →
  set_active v (b, h) = (r, (b', h')) →
  (self b' = self b ∧ p_bypass b' = p_bypass b
   ∧ subGraphInput b' = subGraphInput b ∧ subGraphOutput b' = subGraphOutput b
   ∧ context b' = context b)
  ∧ h_nodes h' = h_nodes h
  ∧ h_connections h' = h_connections h
  ∧ n_gain <$> h_nodes h' !! subGraphOutput b' = Some 1%float
  ∧ events_on h' (subGraphOutput b') = []
  ∧ target h' (subGraphOutput b') = Some 1%float
  ∧ ∀ n, n ≠ p_bypass b → n ≠ subGraphInput b → events_on h' n = events_on h n.
Proof.
  intros Hreach Hset.
  pose proof (reachable_inv _ (reach_set v _ _ r Hreach Hset)) as Hinv'.
  destruct (reachable_inv _ Hreach) as [[c Hc] _ _ _ _ _ _]. cbn [fst] in Hc.
  rewrite (set_active_ok v b h c Hc) in Hset. injection Hset as _ <- <-.
  destruct Hinv' as [_ _ _ _ Ho Hoe _]. cbn [fst snd] in Ho, Hoe.
  unfold subGraphInput, subGraphOutput, context.
  split; [done|]. split; [done|]. split; [done|].
  split; [exact Ho|]. split; [exact Hoe|]. split.
  - rewrite target_no_events by exact Hoe. exact Ho.
  - intros n Hb Hs. rewrite !events_on_add_other by (cbn; congruence). done.
Qed.

(** C10. [connect(...args)] is [#output.connect(...args)]: same result,
    same effect on the host, same exception, for all arguments and on every
    host; [disconnect(...args)] is [#output.disconnect(...args)] in the same
    sense. The instance itself is left as it is. *)
Theorem C10_connect_disconnect_delegate (args : list value) (b : BypassNode)
    (h : host) :
  connect args (b, h)
  = (let (r, h') := AudioNode_connect (subGraphOutput b) args h in (r, (b, h')))
  ∧ disconnect args (b, h)
    = (let (r, h') := AudioNode_disconnect (subGraphOutput b) args h in (r, (b, h'))).
Proof.
  split; [reflexivity|].
  unfold disconnect, bind, this, gets, on_host, ret, subGraphOutput. cbn.
  destruct (AudioNode_disconnect (p_output b) args h) as [[u|e] h'] eqn:Hd;
    [|reflexivity].
  by rewrite (disconnect_undefined _ _ _ _ _ Hd).
Qed.

End Claims.

(** What does hold of the setter for every value: it returns, and [active]
    reads back the very value assigned, which is its own truthiness when the
    value is a boolean. *)
Lemma set_active_stores_value `{Host} (v : value) (b : BypassNode) (h : host) :
  reachable (b, h) →
  ∃ (b' : BypassNode) (h' : host),
    set_active v (b, h) = (Ok tt, (b', h'))
    ∧ active b' = v
    ∧ (∀ x, v = VBool x → active b' = VBool (ToBoolean v)).
Proof.
  intros Hreach. destruct (reachable_inv _ Hreach) as [[c Hc] _ _ _ _ _ _].
  cbn [fst] in Hc. eexists _, _. split; [apply (set_active_ok v b h c Hc)|].
  split; [reflexivity|]. intros x ->. reflexivity.
Qed.

(** C3 (where the code departs from it). [bypass.active = 1] on a freshly
    constructed instance returns, but [active] then reads back the number 1,
    not the boolean [!!1]; the constructor, given the same value as
    [options.active], stores true. *)
Theorem C3_setter_keeps_raw_value :
  ∃ (b' : BypassNode) (h' : host),
    set_active (VNumber 1) fresh_world = (Ok tt, (b', h'))
    ∧ active b' = VNumber 1
    ∧ active b' ≠ VBool (ToBoolean (VNumber 1))
    ∧ ∃ (b : BypassNode) (h : host),
        new_BypassNode (H := WebAudioHost)
          [VContext 0; VPlain [("active", VNumber 1)]] host0 = (Ok b, h)
        ∧ active b = VBool (ToBoolean (VNumber 1)).
Proof.
  eexists _, _. split; [vm_compute; reflexivity|].
  split; [reflexivity|]. split; [discriminate|].
  eexists _, _. split; [vm_compute; reflexivity|]. reflexivity.
Qed.

(** ** The theorems at concrete inputs *)

Lemma C1_targets_complementary_witness :
  reachable (H := WebAudioHost) toggled_world
  ∧ ∃ tb ts : float,
      target (snd toggled_world) 1 = Some tb
      ∧ target (snd toggled_world) 2 = Some ts
      ∧ tb = 1%float ∧ ts = 0%float
      ∧ (tb + ts)%float = 1%float
      ∧ ¬ (tb = 1%float ∧ ts = 1%float)
      ∧ ¬ (tb = 0%float ∧ ts = 0%float).
Proof.
  split; [exact toggled_world_reachable|].
  exact (C1_targets_complementary (H := WebAudioHost) _ _ toggled_world_reachable).
Defined.

Lemma C2_setter_schedules_two_ramps_witness :
  reachable (H := WebAudioHost) fresh_world
  ∧ ∃ (c : nat) (b' : BypassNode) (h' : host),
      context (fst fresh_world) = VContext c
      ∧ set_active (VString "on") fresh_world = (Ok tt, (b', h'))
      ∧ h_automation h'
        = [ {| a_param := 1; a_target := 1;
               a_startTime := seconds (h_clock host0 c); a_timeConstant := 0.01 |};
            {| a_param := 2; a_target := 0;
               a_startTime := seconds (h_clock host0 c); a_timeConstant := 0.01 |} ].
Proof.
  split; [exact fresh_world_reachable|].
  exact (C2_setter_schedules_two_ramps (H := WebAudioHost) (VString "on") _ _
           fresh_world_reachable).
Defined.

Lemma C4_constructor_wiring_witness :
  host_wf host0
  ∧ new_BypassNode (H := WebAudioHost) [VContext 0] host0
    = (Ok (fst fresh_world), snd fresh_world)
  ∧ h_connections (snd fresh_world) = [wire 0 1; wire 0 2; wire 1 3]
  ∧ (wire 2 3 ∉ h_connections (snd fresh_world))
  ∧ (∀ cn, cn ∈ h_connections (snd fresh_world) → c_source cn ≠ 2)
  ∧ NoDup [0; 1; 2; 3]
  ∧ ∃ c a, active (fst fresh_world) = VBool a
      ∧ h_nodes (snd fresh_world) !! 1 = Some (gain_node c (if a then 1 else 0))
      ∧ h_nodes (snd fresh_world) !! 2 = Some (gain_node c (if a then 0 else 1))
      ∧ h_nodes (snd fresh_world) !! 3 = Some (gain_node c 1).
Proof.
  split; [exact host0_wf|]. split; [reflexivity|].
  exact (C4_constructor_wiring (H := WebAudioHost) [VContext 0] host0 _ _
           host0_wf eq_refl).
Defined.

Lemma C5_invalid_context_throws_witness :
  instanceof_BaseAudioContext (argument 0 [VNumber nan]) = false
  ∧ ∃ (e : exn) (h' : host),
      new_BypassNode (H := WebAudioHost) [VNumber nan] host0 = (Throw e, h')
      ∧ h_connections h' = []
      ∧ ((∃ msg, e = TypeError msg
                 ∧ (argument 1 [VNumber nan] = VNull
                    ∨ validates_context (Host := WebAudioHost) = true))
         ∨ (e = Error
  "Failed to construct BypassNode: argument 1 is not an instance of BaseAudioContext"
            ∧ argument 1 [VNumber nan] ≠ VNull
            ∧ validates_context (Host := WebAudioHost) = false)).
Proof.
  split; [reflexivity|].
  exact (C5_invalid_context_throws (H := WebAudioHost) [VNumber nan] host0 eq_refl).
Defined.

Lemma C6_options_validation_witness :
  (argument 0 [VContext 0; VString "string"] = VContext 0
   ∧ is_undefined (VString "string") = false
   ∧ isPlainObject (VString "string") = false
   ∧ ∃ (e : exn) (h' : host),
       new_BypassNode (H := WebAudioHost) [VContext 0; VString "string"] host0
       = (Throw e, h')
       ∧ h_connections h' = []
       ∧ ((VString "string" ≠ VNull
           ∧ e = Error "Failed to construct BypassNode: argument 2 is not an object")
          ∨ (VString "string" = VNull ∧ ∃ msg, e = TypeError msg)))
  ∧ (argument 0 [VContext 0] = VContext 0
     ∧ is_undefined (argument 1 [VContext 0]) = true
     ∧ ∃ (b : BypassNode) (h' : host),
         new_BypassNode (H := WebAudioHost) [VContext 0] host0 = (Ok b, h')
         ∧ active b = VBool false).
Proof.
  split.
  - do 3 (split; [reflexivity|]).
    exact (proj1 (C6_options_validation (H := WebAudioHost)
                    [VContext 0; VString "string"] 0 host0 eq_refl)
             eq_refl eq_refl).
  - do 2 (split; [reflexivity|]).
    exact (proj2 (C6_options_validation (H := WebAudioHost)
                    [VContext 0] 0 host0 eq_refl)
             eq_refl).
Defined.

Lemma C8_setter_frame_witness :
  reachable (H := WebAudioHost) fresh_world
  ∧ set_active (VBool true) fresh_world = (Ok tt, toggled_world)
  ∧ (self (fst toggled_world) = 0 ∧ p_bypass (fst toggled_world) = 1
     ∧ subGraphInput (fst toggled_world) = 2 ∧ subGraphOutput (fst toggled_world) = 3
     ∧ context (fst toggled_world) = VContext 0)
  ∧ h_nodes (snd toggled_world) = h_nodes (snd fresh_world)
  ∧ h_connections (snd toggled_world) = [wire 0 1; wire 0 2; wire 1 3]
  ∧ n_gain <$> h_nodes (snd toggled_world) !! 3 = Some 1%float
  ∧ events_on (snd toggled_world) 3 = []
  ∧ target (snd toggled_world) 3 = Some 1%float
  ∧ ∀ n, n ≠ 1 → n ≠ 2 →
         events_on (snd toggled_world) n = events_on (snd fresh_world) n.
Proof.
  split; [exact fresh_world_reachable|]. split; [reflexivity|].
  exact (C8_setter_frame (H := WebAudioHost) (VBool true) _ _ _ _ (Ok tt)
           fresh_world_reachable eq_refl).
Defined.

(** * Further properties of BypassNode.js *)

(** The four nodes of an instance: itself and its three gain stages. *)
Definition stages (b : BypassNode) : list nat :=
  [self b; p_bypass b; p_subGraphIn b; p_output b].

(** [bypass.active = v1; bypass.active = v2; ...]: the setter called once
    for each value of a list, in order. *)
Fixpoint assign_all (vs : list value) : M world unit :=
  match vs with
  | [] => ret tt
  | v :: rest => set_active v ;; assign_all rest
  end.

(** [r.connect(...args)] on the value [r] a previous [connect] returned:
    only a node has the method. *)
Definition chain_connect `{Host} (r : value) (args : list value) : M host value :=
  match r with
  | VNode n => AudioNode_connect n args
  | _ => throw (TypeError "Cannot read properties of undefined (reading 'connect')")
  end.

(** The graph of the test 'should properly toggle'
    (tests/BypassNode.spec.js, lines 82 to 84):
      const bypass = new BypassNode(audioContext, { active: false });
      const subGraph = new GainNode(audioContext, { gain: 0.5 });
      bypass.subGraphInput.connect(subGraph).connect(bypass.subGraphOutput); *)
Definition toggle_setup `{Host} (audioContext : value) : M host (BypassNode * nat) :=
  bypass <- new_BypassNode [audioContext; VPlain [("active", VBool false)]] ;;
  subGraph <- GainNode_new [audioContext; VPlain [("gain", VNumber 0.5)]] ;;
  r <- AudioNode_connect (subGraphInput bypass) [VNode subGraph] ;;
  chain_connect r [VNode (subGraphOutput bypass)] ;;
  ret (bypass, subGraph).

(** A chain of default connections through the nodes [ns], each to the
    next. *)
Fixpoint route (h : host) (ns : list nat) : Prop :=
  match ns with
  | s :: rest =>
      match rest with
      | d :: _ => wire s d ∈ h_connections h ∧ route h rest
      | [] => True
      end
  | [] => True
  end.

(** ** The nodes of an instance stay in its context *)

Lemma truthy_destructured (arg : value) :
  ToBoolean (destructured arg) = ToBoolean (get_prop arg "active").
Proof.
  destruct arg; try reflexivity. cbn.
  destruct (default VUndefined (assoc "active" fields)); reflexivity.
Qed.

Lemma inv_stages_new `{Host} (args : list value) (h h' : host) (b : BypassNode) :
  new_BypassNode args h = (Ok b, h') →
  ∃ c, p_context b = VContext c
       ∧ Forall (λ n, n_context <$> h_nodes h' !! n = Some (VContext c)) (stages b).
Proof.
  intros Hnew.
  destruct (new_BypassNode_inv _ _ _ _ Hnew) as (c & a & _ & _ & -> & ->).
  exists c. split; [reflexivity|]. unfold stages, built. cbn [self p_bypass p_subGraphIn p_output].
  pose proof (lookup_wired c a h) as Hw.
  repeat apply Forall_cons_2; [| | | |apply Forall_nil_2].
  - rewrite <- (Nat.add_0_r (length (h_nodes h))). by rewrite (Hw 0).
  - by rewrite (Hw 1).
  - by rewrite (Hw 2).
  - by rewrite (Hw 3).
Qed.

Lemma reachable_stages `{Host} (w : world) :
  reachable w →
  ∃ c, p_context (fst w) = VContext c
       ∧ Forall (λ n, n_context <$> h_nodes (snd w) !! n = Some (VContext c))
           (stages (fst w)).
Proof.
  induction 1 as [args h h' b Hwf Hnew | v w w' r Hreach IH Hset
                 | b h h' Hreach IH Henv].
  - by eapply inv_stages_new.
  - destruct w as [b h]. destruct IH as (c & Hc & Hst). cbn [fst snd] in *.
    rewrite (set_active_ok v b h c Hc) in Hset. injection Hset as _ <-.
    exists c. split; [exact Hc|exact Hst].
  - destruct IH as (c & Hc & Hst). destruct Henv as [[more Hnodes] _].
    cbn [fst snd] in *. exists c. split; [exact Hc|].
    eapply Forall_impl; [exact Hst|]. cbn. intros n Hn. rewrite Hnodes.
    destruct (h_nodes h !! n) as [nd|] eqn:Hl; [|discriminate].
    by rewrite (lookup_app_l_Some _ _ _ _ Hl).
Qed.

Section Further.
Context `{Host}.

(** X1. The construction returns an instance exactly when the first argument
    is a context and the second is undefined (or left out) or a plain
    object; it throws in every other case. *)
Theorem construction_succeeds_iff (args : list value) (h : host) :
  (∃ (b : BypassNode) (h' : host), new_BypassNode args h = (Ok b, h'))
  ↔ instanceof_BaseAudioContext (argument 0 args) = true
    ∧ is_undefined (argument 1 args) || isPlainObject (argument 1 args) = true.
Proof.
  split.
  - intros (b & h' & Hnew).
    destruct (new_BypassNode_inv _ _ _ _ Hnew) as (c & a & Hc & _ & _ & _).
    rewrite Hc. split; [reflexivity|].
    destruct (is_undefined (argument 1 args) || isPlainObject (argument 1 args))
      eqn:Hopt; [reflexivity|].
    destruct (null_or_not (argument 1 args)) as [Hnull|Hnull].
    + destruct (new_BypassNode_null args h Hnull) as [msg Hm]. congruence.
    + rewrite (new_BypassNode_bad_options args c h Hc Hnull Hopt) in Hnew.
      discriminate.
  - intros [Hc Hopt]. destruct (argument 0 args) as [| | | | | |c| | |] eqn:Hctx;
      try discriminate.
    eexists _, _. apply (new_BypassNode_ok args c h Hctx Hopt).
Qed.


(** X3. A construction that returns has coerced [options.active] to a
    boolean: [active] is [true] or [false] by the truthiness of the option
    (false when there is none), and [context] is the first argument.  The
    gains of [#bypass] and [#subGraphIn] are created at 1 and 0, or 0 and 1,
    by that boolean, and nothing is scheduled: the initial routing is in
    force at once, without a ramp. *)
Theorem constructor_coerces_active (args : list value) (h h' : host)
    (b : BypassNode) :
  new_BypassNode args h = (Ok b, h') →
  context b = argument 0 args
  ∧ active b = VBool (ToBoolean (get_prop (argument 1 args) "active"))
  ∧ n_gain <$> h_nodes h' !! p_bypass b
    = Some (if ToBoolean (active b) then 1 else 0)%float
  ∧ n_gain <$> h_nodes h' !! subGraphInput b
    = Some (if ToBoolean (active b) then 0 else 1)%float
  ∧ h_automation h' = h_automation h.
Proof.
  intros Hnew.
  destruct (new_BypassNode_inv _ _ _ _ Hnew) as (c & a & Hc & Ha & -> & ->).
  unfold context, active, subGraphInput.
  cbn [built p_context p_active p_bypass p_subGraphIn ToBoolean].
  rewrite truthy_destructured in Ha. subst a.
  pose proof (lookup_wired c (ToBoolean (get_prop (argument 1 args) "active")) h)
    as Hw.
  rewrite (Hw 1), (Hw 2). by repeat split.
Qed.

(** X4. In every reachable state [context] is a context, and the instance's
    own node and its three gain stages are nodes of that context: the setter
    and the rest of the program never move them. *)
Theorem stages_share_context (b : BypassNode) (h : host) :
  reachable (b, h) →
  ∃ c, context b = VContext c
       ∧ Forall (λ n, n_context <$> h_nodes h !! n = Some (context b))
           [self b; p_bypass b; subGraphInput b; subGraphOutput b].
Proof.
  intros Hreach. destruct (reachable_stages _ Hreach) as (c & Hc & Hst).
  cbn [fst snd] in *. exists c. unfold context. rewrite Hc. by split.
Qed.

End Further.

(** ** Sequences of assignments *)

Lemma assign_all_app (vs1 vs2 : list value) (w : world) :
  assign_all (vs1 ++ vs2) w = (assign_all vs1 ;; assign_all vs2) w.
Proof.
  revert w. induction vs1 as [|v vs1 IH]; intros w; cbn [assign_all app].
  - reflexivity.
  - unfold bind. destruct (set_active v w) as [[u|e] w1]; [|reflexivity].
    specialize (IH w1). unfold bind in IH. exact IH.
Qed.

Lemma assign_all_reachable `{Host} (vs : list value) (w : world) :
  reachable w →
  ∃ w', assign_all vs w = (Ok tt, w')
        ∧ reachable w'
        ∧ stages (fst w') = stages (fst w)
        ∧ h_nodes (snd w') = h_nodes (snd w)
        ∧ h_connections (snd w') = h_connections (snd w)
        ∧ length (h_automation (snd w'))
          = length (h_automation (snd w)) + 2 * length vs.
Proof.
  revert w. induction vs as [|v vs IH]; intros w Hreach.
  - exists w. cbn. repeat split; try done; lia.
  - destruct w as [b h].
    destruct (reachable_inv _ Hreach) as [[c Hc] _ _ _ _ _ _]. cbn [fst] in Hc.
    pose proof (set_active_ok v b h c Hc) as Hset.
    destruct (IH _ (reach_set v _ _ _ Hreach Hset))
      as (w' & Hrun & Hreach' & Hst & Hn & Hcn & Hlen).
    exists w'. cbn [assign_all]. unfold bind. rewrite Hset.
    split; [exact Hrun|]. split; [exact Hreach'|].
    cbn [fst snd] in *. rewrite Hst, Hn, Hcn, Hlen.
    repeat split; try done. cbn. rewrite !length_app. cbn. lia.
Qed.

Section Sequences.
Context `{Host}.

(** X5. A burst of assignments [active = v1; ...; active = v] on an instance
    in a reachable state never throws and is never cut short: each call
    schedules its two events even when the value repeats.  At the end
    [active] reads the last value [v], the two targets are those of [v]
    alone, and the nodes and connections of the host are as before. *)
Theorem last_assignment_wins (vs : list value) (v : value) (b : BypassNode)
    (h : host) :
  reachable (b, h) →
  ∃ (b' : BypassNode) (h' : host),
    assign_all (vs ++ [v]) (b, h) = (Ok tt, (b', h'))
    ∧ active b' = v
    ∧ target h' (p_bypass b') = Some (if ToBoolean v then 1 else 0)%float
    ∧ target h' (subGraphInput b') = Some (if ToBoolean v then 0 else 1)%float
    ∧ length (h_automation h') = length (h_automation h) + 2 * length (vs ++ [v])
    ∧ h_nodes h' = h_nodes h
    ∧ h_connections h' = h_connections h.
Proof.
  intros Hreach.
  destruct (assign_all_reachable vs _ Hreach)
    as ([b1 h1] & Hrun & Hreach1 & _ & Hn & Hcn & Hlen).
  destruct (reachable_inv _ Hreach1) as [[c Hc] _ _ _ _ _ _].
  cbn [fst snd] in *.
  pose proof (set_active_ok v b1 h1 c Hc) as Hset.
  destruct (reachable_inv _ (reach_set v _ _ _ Hreach1 Hset))
    as [_ _ Hb Hs _ _ _].
  cbn [fst snd assign_active p_active p_bypass p_subGraphIn] in Hb, Hs.
  eexists _, _. split.
  { rewrite assign_all_app. unfold bind at 1. rewrite Hrun.
    cbn [assign_all]. unfold bind. rewrite Hset. reflexivity. }
  split; [reflexivity|]. split; [exact Hb|]. split; [exact Hs|].
  cbn. rewrite !length_app, Hlen, Hn, Hcn. cbn.
  repeat split; try done; lia.
Qed.

(** X6. What the setter asks of the host depends on the truthiness of the
    value only: two values that coerce to the same boolean leave the host in
    the same state, and differ in what [active] reads back. *)
Theorem setter_effect_by_truthiness (v1 v2 : value) (b : BypassNode) (h : host) :
  reachable (b, h) →
  ToBoolean v1 = ToBoolean v2 →
  ∃ (b1 b2 : BypassNode) (h' : host),
    set_active v1 (b, h) = (Ok tt, (b1, h'))
    ∧ set_active v2 (b, h) = (Ok tt, (b2, h'))
    ∧ active b1 = v1 ∧ active b2 = v2.
Proof.
  intros Hreach Htruth.
  destruct (reachable_inv _ Hreach) as [[c Hc] _ _ _ _ _ _]. cbn [fst] in Hc.
  eexists _, _, _. split; [apply (set_active_ok v1 b h c Hc)|].
  split; [rewrite (set_active_ok v2 b h c Hc), Htruth; reflexivity|].
  by split.
Qed.

(** X7. The construction, whether it returns or throws, keeps the host well
    formed: every connection and every automation event is on a node the
    host has created. *)
Theorem construction_keeps_host_wf (args : list value) (h h' : host)
    (r : outcome BypassNode) :
  host_wf h → new_BypassNode args h = (r, h') → host_wf h'.
Proof.
  intros [Hcn Hev] Hnew. destruct r as [b|e].
  - destruct (new_BypassNode_inv _ _ _ _ Hnew) as (c & a & _ & _ & _ & ->).
    split; cbn [wired h_connections h_automation h_nodes];
      rewrite length_app; cbn [length].
    + apply Forall_app. split.
      * eapply Forall_impl; [exact Hcn|]. cbn. intros; lia.
      * repeat apply Forall_cons_2; [cbn; lia..|apply Forall_nil_2].
    + eapply Forall_impl; [exact Hev|]. cbn. intros; lia.
  - destruct (new_BypassNode_throw _ _ _ _ Hnew) as (Hc & Ha & _ & Hn).
    split; [rewrite Hc|rewrite Ha].
    + eapply Forall_impl; [exact Hcn|]. cbn. intros cn Hlt.
      destruct Hn as [->|[nd ->]]; [|rewrite length_app]; lia.
    + eapply Forall_impl; [exact Hev|]. cbn. intros ev Hlt.
      destruct Hn as [->|[nd ->]]; [|rewrite length_app]; lia.
Qed.

(** X8. So does the setter, on an instance in a reachable state: the two
    events it schedules are on gains of nodes that exist. *)
Theorem setter_keeps_host_wf (v : value) (b b' : BypassNode) (h h' : host)
    (r : outcome unit) :
  reachable (b, h) → host_wf h → set_active v (b, h) = (r, (b', h')) → host_wf h'.
Proof.
  intros Hreach [Hcn Hev] Hset.
  destruct (reachable_inv _ Hreach) as [[c Hc] _ _ _ _ _ Hlt].
  cbn [fst snd] in Hc, Hlt.
  rewrite (set_active_ok v b h c Hc) in Hset. injection Hset as _ _ <-.
  apply Forall_cons in Hlt as [Hb Hlt]. apply Forall_cons in Hlt as [Hs _].
  split; [exact Hcn|]. cbn. rewrite <- app_assoc.
  apply Forall_app. split; [exact Hev|].
  repeat apply Forall_cons_2; [exact Hb|exact Hs|apply Forall_nil_2].
Qed.

End Sequences.

(** ** Several instances, and the graph around one *)

Lemma target_environment (b : BypassNode) (h h' : host) (n : nat) :
  inv (b, h) → environment b h h' →
  n ∈ [p_bypass b; p_subGraphIn b; p_output b] →
  target h' n = target h n.
Proof.
  intros [_ _ _ _ _ _ Hlt] [[more Hnodes] Hev] Hn. cbn [fst snd] in Hlt.
  unfold target. rewrite (Hev n Hn), Hnodes.
  rewrite Forall_forall in Hlt. by rewrite (lookup_app_l _ _ _ (Hlt n Hn)).
Qed.

Lemma toggle_setup_eq `{Host} (c : nat) (h : host) :
  let n := length (h_nodes h) in
  toggle_setup (VContext c) h
  = (Ok (built c false n, n + 4),
     add_connection (wire (n + 4) (n + 3))
       (add_connection (wire (n + 2) (n + 4))
          (add_node (gain_node c 0.5) (wired c false h)))).
Proof.
  intros n. unfold toggle_setup.
  unfold bind at 1.
  rewrite (new_BypassNode_ok [VContext c; VPlain [("active", VBool false)]] c h
             eq_refl eq_refl).
  change (ToBoolean (destructured
            (argument 1 [VContext c; VPlain [("active", VBool false)]])))
    with false.
  fold n. set (h1 := wired c false h).
  assert (Hlen : length (h_nodes h1) = n + 4).
  { unfold h1. cbn [wired h_nodes]. rewrite length_app. reflexivity. }
  assert (Hin : h_nodes h1 !! (n + 2) = Some (gain_node c 1))
    by apply (lookup_wired c false h 2).
  assert (Hout : h_nodes h1 !! (n + 3) = Some (gain_node c 1))
    by apply (lookup_wired c false h 3).
  unfold bind at 1. rewrite GainNode_new_gain.
  unfold bind at 1. unfold subGraphInput, subGraphOutput.
  cbn [built p_subGraphIn p_output].
  rewrite (connect_to_new c (n + 2) _ _ h1 Hin eq_refl).
  unfold bind at 1. cbn [chain_connect].
  rewrite (connect_same_context _ (length (h_nodes h1)) (n + 3) c
             (gain_node c 0.5) (gain_node c 1)); try done.
  - unfold ret. rewrite Hlen. reflexivity.
  - apply lookup_add_node_new.
  - by apply lookup_add_node_old.
Qed.

Section Graph.
Context `{Host}.

(** X9. Two instances on one host do not interfere: constructing a second
    instance and assigning to its [active] leaves the first in a reachable
    state, with the events and the targets of its three gains as they
    were. *)
Theorem instances_independent (args : list value) (v : value)
    (b1 b2 b2' : BypassNode) (h h2 h3 : host) (r : outcome unit) :
  reachable (b1, h) →
  new_BypassNode args h = (Ok b2, h2) →
  set_active v (b2, h2) = (r, (b2', h3)) →
  reachable (b1, h3)
  ∧ ∀ n, n ∈ [p_bypass b1; subGraphInput b1; subGraphOutput b1] →
         events_on h3 n = events_on h n ∧ target h3 n = target h n.
Proof.
  intros Hreach Hnew Hset.
  pose proof (reachable_inv _ Hreach) as Hinv.
  assert (Hlt : ∀ n, n ∈ [p_bypass b1; p_subGraphIn b1; p_output b1] →
                     n < length (h_nodes h)).
  { destruct Hinv as [_ _ _ _ _ _ Hlt]. by rewrite Forall_forall in Hlt. }
  destruct (new_BypassNode_inv _ _ _ _ Hnew) as (c & a & _ & _ & -> & ->).
  rewrite (set_active_ok v (built c a (length (h_nodes h))) (wired c a h) c
             eq_refl) in Hset.
  injection Hset as _ _ <-.
  cbn [built p_bypass p_subGraphIn] in *.
  assert (Henv : environment b1 h
                   (add_automation
                      (ramp (length (h_nodes h) + 2) (if ToBoolean v then 0 else 1)
                         (seconds (h_clock (wired c a h) c)))
                      (add_automation
                         (ramp (length (h_nodes h) + 1) (if ToBoolean v then 1 else 0)
                            (seconds (h_clock (wired c a h) c)))
                         (wired c a h)))).
  { split.
    - eexists. reflexivity.
    - intros n Hn. specialize (Hlt n Hn).
      rewrite !events_on_add_other by (cbn; lia). reflexivity. }
  split; [by eapply reach_env|].
  intros n Hn. split.
  - by apply Henv.
  - by apply (target_environment b1).
Qed.

(** X10. [bypass.connect(destination)], for a node of the instance's
    context, returns the destination, so that calls chain as in
    [src.connect(bypass).connect(audioContext.destination)]; the connection
    it makes leaves [#output], not the instance's own node, and the instance
    stays in a reachable state. *)
Theorem connect_chains_from_output (d : nat) (nd : GainNodeData)
    (b : BypassNode) (h : host) :
  reachable (b, h) →
  h_nodes h !! d = Some nd →
  n_context nd = context b →
  connect [VNode d] (b, h)
  = (Ok (VNode d), (b, add_connection (wire (subGraphOutput b) d) h))
  ∧ reachable (b, add_connection (wire (subGraphOutput b) d) h).
Proof.
  intros Hreach Hd Hctx.
  destruct (reachable_stages _ Hreach) as (c & Hc & Hst). cbn [fst snd] in *.
  unfold stages in Hst. rewrite !Forall_cons in Hst.
  destruct Hst as (_ & _ & _ & Hout & _).
  destruct (h_nodes h !! p_output b) as [no|] eqn:Hlook; [|discriminate].
  injection Hout as Hout. unfold context in Hctx. rewrite Hc in Hctx.
  split.
  - unfold connect, bind, this, gets, on_host. cbn [fst snd].
    by rewrite (connect_same_context h (p_output b) d c no nd).
  - apply (reach_env b h); [exact Hreach|]. split.
    + exists []. cbn. by rewrite app_nil_r.
    + reflexivity.
Qed.

(** X11. The graph of the test 'should properly toggle', on any well formed
    host: the three lines run without throwing; of the five connections
    made, three are the instance's and two splice the sub graph, so that the
    instance's input reaches [subGraphOutput] both through [#bypass] and
    through the sub graph; the instance is in a reachable state, not
    active, [#bypass] heading for 0 and [#subGraphIn] for 1. *)
Theorem toggle_setup_routes (c : nat) (h : host) :
  host_wf h →
  let n := length (h_nodes h) in
  ∃ (b : BypassNode) (h' : host),
    toggle_setup (VContext c) h = (Ok (b, n + 4), h')
    ∧ active b = VBool false
    ∧ h_nodes h' !! (n + 4) = Some (gain_node c 0.5)
    ∧ h_connections h'
      = h_connections h
        ++ [wire (self b) (p_bypass b); wire (self b) (subGraphInput b);
            wire (p_bypass b) (subGraphOutput b);
            wire (subGraphInput b) (n + 4); wire (n + 4) (subGraphOutput b)]
    ∧ route h' [self b; p_bypass b; subGraphOutput b]
    ∧ route h' [self b; subGraphInput b; n + 4; subGraphOutput b]
    ∧ reachable (b, h')
    ∧ target h' (p_bypass b) = Some 0%float
    ∧ target h' (subGraphInput b) = Some 1%float.
Proof.
  intros Hwf n. eexists _, _. split; [apply toggle_setup_eq|]. fold n.
  set (h1 := wired c false h).
  assert (Hlen : length (h_nodes h1) = n + 4).
  { unfold h1. cbn [wired h_nodes]. rewrite length_app. reflexivity. }
  assert (Hreach : reachable
            (built c false n,
             add_connection (wire (n + 4) (n + 3))
               (add_connection (wire (n + 2) (n + 4))
                  (add_node (gain_node c 0.5) h1)))).
  { apply (reach_env _ h1).
    - apply (reach_new [VContext c] h _ _ Hwf).
      apply (new_BypassNode_ok [VContext c] c h eq_refl eq_refl).
    - split; [by eexists|reflexivity]. }
  destruct (reachable_inv _ Hreach) as [_ _ Hb Hs _ _ _].
  unfold active, subGraphInput, subGraphOutput.
  cbn [built self p_active p_bypass p_subGraphIn p_output fst snd ToBoolean] in *.
  split; [reflexivity|]. split.
  { cbn [add_connection add_node h_nodes]. rewrite <- Hlen.
    by rewrite lookup_app_r, Nat.sub_diag. }
  split.
  { cbn [add_connection add_node h_connections h1 wired].
    by rewrite <- !app_assoc. }
  assert (Hmem : ∀ cn, cn ∈ [wire n (n + 1); wire n (n + 2); wire (n + 1) (n + 3);
                              wire (n + 2) (n + 4); wire (n + 4) (n + 3)] →
                       cn ∈ h_connections
                              (add_connection (wire (n + 4) (n + 3))
                                 (add_connection (wire (n + 2) (n + 4))
                                    (add_node (gain_node c 0.5) h1)))).
  { intros cn Hcn. cbn [add_connection add_node h_connections h1 wired].
    rewrite <- !app_assoc. apply elem_of_app. right. exact Hcn. }
  split; [cbn [route]; repeat split; apply Hmem; repeat constructor|].
  split; [cbn [route]; repeat split; apply Hmem; repeat constructor|].
  split; [exact Hreach|]. split; [exact Hb|exact Hs].
Qed.

End Graph.

(** ** The further properties at concrete inputs *)

(** [fresh_world] with one more node of the same context, as a destination
    for [connect]. *)
Definition destination_world : world :=
  (fst fresh_world, add_node (gain_node 0 1) (snd fresh_world)).

(** A second instance, active, constructed on the host of [fresh_world]. *)
Definition second_world : world := (built 0 true 4, wired 0 true (snd fresh_world)).

Lemma fresh_world_wf : host_wf (snd fresh_world).
Proof.
  split; cbn; repeat (apply Forall_cons_2; [cbn; lia|]); apply Forall_nil_2.
Defined.

Lemma destination_world_reachable : reachable (H := WebAudioHost) destination_world.
Proof.
  apply (reach_env _ (snd fresh_world)); [exact fresh_world_reachable|].
  split; [by eexists|reflexivity].
Defined.


Lemma constructor_coerces_active_witness :
  new_BypassNode (H := WebAudioHost)
    [VContext 0; VPlain [("active", VString "yes")]] host0
  = (Ok (fst fresh_active_world), snd fresh_active_world)
  ∧ context (fst fresh_active_world) = VContext 0
  ∧ active (fst fresh_active_world) = VBool true
  ∧ n_gain <$> h_nodes (snd fresh_active_world) !! 1 = Some 1%float
  ∧ n_gain <$> h_nodes (snd fresh_active_world) !! 2 = Some 0%float
  ∧ h_automation (snd fresh_active_world) = [].
Proof.
  split; [reflexivity|].
  exact (constructor_coerces_active (H := WebAudioHost)
           [VContext 0; VPlain [("active", VString "yes")]] host0 _ _ eq_refl).
Defined.

Lemma stages_share_context_witness :
  reachable (H := WebAudioHost) toggled_world
  ∧ ∃ c, context (fst toggled_world) = VContext c
         ∧ Forall (λ n, n_context <$> h_nodes (snd toggled_world) !! n
                        = Some (VContext 0))
             [0; 1; 2; 3].
Proof.
  split; [exact toggled_world_reachable|].
  exact (stages_share_context (H := WebAudioHost) _ _ toggled_world_reachable).
Defined.

Lemma last_assignment_wins_witness :
  reachable (H := WebAudioHost) fresh_world
  ∧ ∃ (b' : BypassNode) (h' : host),
      assign_all [VBool true; VNumber 0; VString "on"] fresh_world
      = (Ok tt, (b', h'))
      ∧ active b' = VString "on"
      ∧ target h' (p_bypass b') = Some 1%float
      ∧ target h' (subGraphInput b') = Some 0%float
      ∧ length (h_automation h') = 6
      ∧ h_nodes h' = h_nodes (snd fresh_world)
      ∧ h_connections h' = h_connections (snd fresh_world).
Proof.
  split; [exact fresh_world_reachable|].
  exact (last_assignment_wins (H := WebAudioHost) [VBool true; VNumber 0]
           (VString "on") _ _ fresh_world_reachable).
Defined.

Lemma setter_effect_by_truthiness_witness :
  reachable (H := WebAudioHost) fresh_world
  ∧ ToBoolean (VNumber 1) = ToBoolean (VString "on")
  ∧ ∃ (b1 b2 : BypassNode) (h' : host),
      set_active (VNumber 1) fresh_world = (Ok tt, (b1, h'))
      ∧ set_active (VString "on") fresh_world = (Ok tt, (b2, h'))
      ∧ active b1 = VNumber 1 ∧ active b2 = VString "on".
Proof.
  split; [exact fresh_world_reachable|]. split; [reflexivity|].
  exact (setter_effect_by_truthiness (H := WebAudioHost) (VNumber 1) (VString "on")
           _ _ fresh_world_reachable eq_refl).
Defined.

Lemma construction_keeps_host_wf_witness :
  host_wf host0
  ∧ new_BypassNode (H := WebAudioHost) [VContext 0; VString "string"] host0
    = (Throw (Error "Failed to construct BypassNode: argument 2 is not an object"),
       add_node (gain_node 0 1) host0)
  ∧ host_wf (add_node (gain_node 0 1) host0).
Proof.
  split; [exact host0_wf|]. split; [reflexivity|].
  exact (construction_keeps_host_wf (H := WebAudioHost)
           [VContext 0; VString "string"] host0 _ _ host0_wf eq_refl).
Defined.

Lemma setter_keeps_host_wf_witness :
  reachable (H := WebAudioHost) fresh_world
  ∧ host_wf (snd fresh_world)
  ∧ set_active (VBool true) fresh_world = (Ok tt, toggled_world)
  ∧ host_wf (snd toggled_world).
Proof.
  split; [exact fresh_world_reachable|]. split; [exact fresh_world_wf|].
  split; [reflexivity|].
  exact (setter_keeps_host_wf (H := WebAudioHost) (VBool true) _ _ _ _ (Ok tt)
           fresh_world_reachable fresh_world_wf eq_refl).
Defined.

Lemma instances_independent_witness :
  reachable (H := WebAudioHost) fresh_world
  ∧ new_BypassNode (H := WebAudioHost)
      [VContext 0; VPlain [("active", VBool true)]] (snd fresh_world)
    = (Ok (fst second_world), snd second_world)
  ∧ set_active (VBool false) second_world
    = (Ok tt, (assign_active (VBool false) (fst second_world),
               add_automation (ramp 6 1 0)
                 (add_automation (ramp 5 0 0) (snd second_world))))
  ∧ reachable (H := WebAudioHost)
      (fst fresh_world,
       add_automation (ramp 6 1 0) (add_automation (ramp 5 0 0) (snd second_world)))
  ∧ ∀ n, n ∈ [1; 2; 3] →
         events_on (add_automation (ramp 6 1 0)
                      (add_automation (ramp 5 0 0) (snd second_world))) n
         = events_on (snd fresh_world) n
         ∧ target (add_automation (ramp 6 1 0)
                     (add_automation (ramp 5 0 0) (snd second_world))) n
           = target (snd fresh_world) n.
Proof.
  split; [exact fresh_world_reachable|]. split; [reflexivity|].
  split; [reflexivity|].
  exact (instances_independent (H := WebAudioHost)
           [VContext 0; VPlain [("active", VBool true)]] (VBool false)
           _ _ _ _ _ _ (Ok tt) fresh_world_reachable eq_refl eq_refl).
Defined.

Lemma connect_chains_from_output_witness :
  reachable (H := WebAudioHost) destination_world
  ∧ h_nodes (snd destination_world) !! 4 = Some (gain_node 0 1)
  ∧ n_context (gain_node 0 1) = context (fst destination_world)
  ∧ connect (H := WebAudioHost) [VNode 4] destination_world
    = (Ok (VNode 4),
       (fst destination_world, add_connection (wire 3 4) (snd destination_world)))
  ∧ reachable (H := WebAudioHost)
      (fst destination_world, add_connection (wire 3 4) (snd destination_world)).
Proof.
  split; [exact destination_world_reachable|]. split; [reflexivity|].
  split; [reflexivity|].
  exact (connect_chains_from_output (H := WebAudioHost) 4 _ _ _
           destination_world_reachable eq_refl eq_refl).
Defined.

Lemma toggle_setup_routes_witness :
  host_wf host0
  ∧ ∃ (b : BypassNode) (h' : host),
      toggle_setup (H := WebAudioHost) (VContext 0) host0 = (Ok (b, 4), h')
      ∧ active b = VBool false
      ∧ h_nodes h' !! 4 = Some (gain_node 0 0.5)
      ∧ h_connections h'
        = [wire (self b) (p_bypass b); wire (self b) (subGraphInput b);
           wire (p_bypass b) (subGraphOutput b);
           wire (subGraphInput b) 4; wire 4 (subGraphOutput b)]
      ∧ route h' [self b; p_bypass b; subGraphOutput b]
      ∧ route h' [self b; subGraphInput b; 4; subGraphOutput b]
      ∧ reachable (H := WebAudioHost) (b, h')
      ∧ target h' (p_bypass b) = Some 0%float
      ∧ target h' (subGraphInput b) = Some 1%float.
Proof.
  split; [exact host0_wf|].
  exact (toggle_setup_routes (H := WebAudioHost) 0 host0 host0_wf).
Defined.
